(** * MCPClient: a thin HTTP client for a graph-execution service

    Shallow embedding of [src/mcp_client.py].  Every method of the Python
    class [MCPClient] is a computation in a small state-and-exception monad
    over a [world] made of
    - the Python object store (the dicts and lists the caller owns, and the
      ones a call allocates),
    - the attributes of the client object ([base_url], [session]),
    - the replies the remote service is going to give, and
    - the trace of what the call did to the outside (requests handed to the
      session, response bodies read off the wire, lines printed). *)

From stdpp Require Import base option list strings.
From Stdlib Require Import ZArith Lia.

Local Open Scope string_scope.
Local Open Scope list_scope.

(** ** Python values *)

(** Object identities: an index into the object store. *)
Definition loc := nat.

(** Immutable Python values are immediate, mutable ones ([dict], [list]) are
    references into the store. *)
Inductive val :=
| VNone
| VBool (b : bool)
| VInt (n : Z)
| VStr (s : string)
| VRef (l : loc).

(** A decoded JSON document, as [response.json()] returns it. *)
#[local] Set Warnings "-register-all".
Inductive json :=
| JNull
| JBool (b : bool)
| JNum (n : Z)
| JStr (s : string)
| JArr (items : list json)
| JObj (members : list (string * json)).

(** ** Python dicts: insertion-ordered, one entry per key *)

Section Dict.
Context {V : Type}.

Definition dict := list (string * V).

(** [d.get(k)] *)
Fixpoint dict_get (k : string) (d : dict) : option V :=
  match d with
  | [] => None
  | (k', v) :: rest => if String.eqb k k' then Some v else dict_get k rest
  end.

(** [d[k] = v]: an existing key keeps its position, a new one goes last. *)
Fixpoint dict_set (k : string) (v : V) (d : dict) : dict :=
  match d with
  | [] => [(k, v)]
  | (k', v') :: rest =>
      if String.eqb k k' then (k', v) :: rest else (k', v') :: dict_set k v rest
  end.

(** [d.update(e)]: the entries of [e] are assigned into [d] in order. *)
Definition dict_update (d e : dict) : dict :=
  foldl (fun acc kv => dict_set kv.1 kv.2 acc) d e.

(** A dict display [{k1: v1, ...}], or the dict the call protocol builds
    from keyword arguments. *)
Definition dict_of (items : list (string * V)) : dict := dict_update [] items.
End Dict.
Arguments dict : clear implicits.

(** Objects of the store. *)
Inductive obj :=
| ODict (d : dict val)
| OList (items : list val).

(** ** HTTP *)

Inductive http_method := GET | POST | PUT.

(** What is handed to [session.request]: [json] and [params] hold the
    entries of the dict passed, as they are at the time of the call. *)
Record request := {
  method : http_method;
  url : string;
  json_body : option (dict val);
  params : option (dict val);
  stream : bool;
}.

(** What the service answers. *)
Record reply := {
  reply_status : Z;
  reply_body : string;
}.

(** A [requests.Response]: [content_consumed] tells whether the body has
    been read off the connection. *)
Record response := {
  status_code : Z;
  text : string;
  content_consumed : bool;
}.

Definition session_id := nat.

Inductive event :=
| Sent (s : session_id) (rq : request)
| BodyRead (rp : reply)
| Printed (args : list val).

Inductive exn :=
| HTTPError (r : response)
| JSONDecodeError (doc : string)
| AttributeError
| TypeError
| ConnectionError.

(** ** The world *)

(** The attributes of an [MCPClient] instance. *)
Record client := {
  base_url : string;
  session : session_id;
}.

Record world := {
  heap : list obj;
  self : client;
  sessions : nat;
  inbox : list reply;
  trace : list event;
}.

Definition set_heap (h : list obj) (w : world) : world :=
  {| heap := h; self := self w; sessions := sessions w;
     inbox := inbox w; trace := trace w |}.

Definition set_self (c : client) (w : world) : world :=
  {| heap := heap w; self := c; sessions := sessions w;
     inbox := inbox w; trace := trace w |}.

Definition set_sessions (n : nat) (w : world) : world :=
  {| heap := heap w; self := self w; sessions := n;
     inbox := inbox w; trace := trace w |}.

Definition set_inbox (i : list reply) (w : world) : world :=
  {| heap := heap w; self := self w; sessions := sessions w;
     inbox := i; trace := trace w |}.

Definition log (e : event) (w : world) : world :=
  {| heap := heap w; self := self w; sessions := sessions w;
     inbox := inbox w; trace := trace w ++ [e] |}.

(** ** The monad: state that survives exceptions *)

Inductive outcome (A : Type) :=
| Return (a : A)
| Raise (e : exn).
Arguments Return {A} a.
Arguments Raise {A} e.

Definition M (A : Type) : Type := world -> outcome A * world.

Definition ret {A} (a : A) : M A := fun w => (Return a, w).

Definition bind {A B} (m : M A) (k : A -> M B) : M B :=
  fun w =>
    match m w with
    | (Return a, w') => k a w'
    | (Raise e, w') => (Raise e, w')
    end.

Definition raise {A} (e : exn) : M A := fun w => (Raise e, w).

Notation "x <- m ;; k" := (bind m (fun x => k))
  (at level 100, m at next level, right associativity).
Notation "m ;; k" := (bind m (fun _ => k))
  (at level 100, right associativity).

(** [try: body / except requests.exceptions.HTTPError as e: handler e] *)
Definition try_except_HTTPError {A} (body : M A) (handler : exn -> M A) : M A :=
  fun w =>
    match body w with
    | (Raise (HTTPError r), w') => handler (HTTPError r) w'
    | res => res
    end.

(** ** Primitives *)

(** [self.base_url], [self.session] *)
Definition self_base_url : M string := fun w => (Return (base_url (self w)), w).
Definition self_session : M session_id := fun w => (Return (session (self w)), w).

(** Evaluating a dict display allocates a new dict. *)
Definition new_dict (items : list (string * val)) : M loc :=
  fun w => (Return (length (heap w)),
            set_heap (heap w ++ [ODict (dict_of items)]) w).

(** [payload.update(kwargs)] on two dicts of the store. *)
Definition update (p kw : loc) : M unit :=
  fun w =>
    match heap w !! p, heap w !! kw with
    | Some (ODict d), Some (ODict e) =>
        (Return tt, set_heap (<[p := ODict (dict_update d e)]> (heap w)) w)
    | _, _ => (Raise TypeError, w)
    end.

(** [payload[k] = v] *)
Definition setitem (p : loc) (k : string) (v : val) : M unit :=
  fun w =>
    match heap w !! p with
    | Some (ODict d) =>
        (Return tt, set_heap (<[p := ODict (dict_set k v d)]> (heap w)) w)
    | _ => (Raise TypeError, w)
    end.

(** The entries of the dict passed as [json=] or [params=]. *)
Definition entries (arg : option loc) : M (option (dict val)) :=
  match arg with
  | None => ret None
  | Some l =>
      fun w =>
        match heap w !! l with
        | Some (ODict d) => (Return (Some d), w)
        | _ => (Raise TypeError, w)
        end
  end.

(** [session.request(method, url, json=, params=, stream=)]: the request goes
    out, the next reply of the service comes in; unless [stream] is set the
    body is downloaded before the call returns. *)
Definition session_request (s : session_id) (m : http_method) (u : string)
    (json_arg params_arg : option loc) (streaming : bool) : M response :=
  body <- entries json_arg ;;
  query <- entries params_arg ;;
  fun w =>
    let rq := {| method := m; url := u; json_body := body;
                 params := query; stream := streaming |} in
    let w1 := log (Sent s rq) w in
    match inbox w1 with
    | [] => (Raise ConnectionError, w1)
    | rp :: rest =>
        let w2 := set_inbox rest w1 in
        let w3 := if streaming then w2 else log (BodyRead rp) w2 in
        (Return {| status_code := reply_status rp; text := reply_body rp;
                   content_consumed := negb streaming |}, w3)
    end.

(** [requests.Response.raise_for_status]: an [HTTPError] carrying the
    response for a status from 400 to 599 (client and server errors),
    nothing otherwise. *)
Definition is_http_error (code : Z) : bool :=
  ((400 <=? code)%Z && (code <? 600)%Z)%bool.

Definition raise_for_status (r : response) : M unit :=
  if is_http_error (status_code r) then raise (HTTPError r) else ret tt.

(** [response.text]: reads the body off the wire if that was not done. *)
Definition response_text (r : response) : M string :=
  if content_consumed r then ret (text r)
  else fun w =>
         (Return (text r),
          log (BodyRead {| reply_status := status_code r; reply_body := text r |}) w).

(** [print(a, b, ...)]: one line on standard output *)
Definition print (args : list val) : M unit :=
  fun w => (Return tt, log (Printed args) w).

(** ** The client *)

(** What a method hands back: a decoded document, [None], or the response
    itself. *)
Inductive result :=
| RJson (j : json)
| RNone
| RResponse (r : response).

(** [MCPClient.__init__] *)
Definition init (base_url : string) : M unit :=
  fun w =>
    (Return tt,
     set_sessions (S (sessions w))
       (set_self {| base_url := base_url; session := sessions w |} w)).

Section Client.
(** The JSON decoder behind [response.json()]: [None] for a body that is
    not a JSON document. *)
Variable loads : string -> option json.

(** [response.json()] *)
Definition response_json (r : response) : M json :=
  doc <- response_text r ;;
  match loads doc with
  | Some j => ret j
  | None => raise (JSONDecodeError doc)
  end.

Definition session_post (u : string) (json_arg : loc) (streaming : bool) : M response :=
  s <- self_session ;;
  session_request s POST u (Some json_arg) None streaming.

Definition session_get (u : string) (params_arg : option loc) : M response :=
  s <- self_session ;;
  session_request s GET u None params_arg false.

Definition session_put (u : string) (json_arg : loc) : M response :=
  s <- self_session ;;
  session_request s PUT u (Some json_arg) None false.

(** A parameter declared [name = d] is bound to [d] when the caller leaves
    it out: [None : option val] is "not supplied". *)
Definition run_stateful (assistant_id : string)
    (input_data config checkpoint metadata : option val)
    (kwargs : list (string * val)) : M json :=
  let input_data := default VNone input_data in
  let config := default VNone config in
  let checkpoint := default VNone checkpoint in
  let metadata := default VNone metadata in
  kwargs <- new_dict kwargs ;;
  payload <- new_dict [("assistant_id", VStr assistant_id);
                       ("input", input_data);
                       ("config", config);
                       ("checkpoint", checkpoint);
                       ("metadata", metadata)] ;;
  update payload kwargs ;;
  base <- self_base_url ;;
  let url := base +:+ "/threads/runs/wait" in
  response <- session_post url payload false ;;
  raise_for_status response ;;
  response_json response.

Definition get_assistant_details (assistant_id : string) : M json :=
  base <- self_base_url ;;
  let url := base +:+ "/assistants/" +:+ assistant_id +:+ "/schemas" in
  response <- session_get url None ;;
  raise_for_status response ;;
  response_json response.

Definition get_assistant_schema (assistant_id : string) : M json :=
  details <- get_assistant_details assistant_id ;;
  match details with
  | JObj d => ret (default (JObj []) (dict_get "input_schema" d))
  | _ => raise AttributeError
  end.

Definition run_stateless (assistant_id : string)
    (input_data config metadata : option val)
    (kwargs : list (string * val)) : M json :=
  let input_data := default VNone input_data in
  let config := default VNone config in
  let metadata := default VNone metadata in
  kwargs <- new_dict kwargs ;;
  payload <- new_dict [("assistant_id", VStr assistant_id);
                       ("input", input_data);
                       ("config", config);
                       ("metadata", metadata)] ;;
  update payload kwargs ;;
  base <- self_base_url ;;
  let url := base +:+ "/runs/wait" in
  response <- session_post url payload false ;;
  try_except_HTTPError (raise_for_status response)
    (fun e =>
       body <- response_text response ;;
       print [VStr "HTTP Error:"; VInt (status_code response); VStr body] ;;
       raise e) ;;
  response_json response.

Definition stream_run (assistant_id : string)
    (input_data config metadata : option val)
    (kwargs : list (string * val)) : M response :=
  let input_data := default VNone input_data in
  let config := default VNone config in
  let metadata := default VNone metadata in
  kwargs <- new_dict kwargs ;;
  payload <- new_dict [("assistant_id", VStr assistant_id);
                       ("input", input_data);
                       ("config", config);
                       ("metadata", metadata)] ;;
  update payload kwargs ;;
  base <- self_base_url ;;
  let url := base +:+ "/runs/stream" in
  response <- session_post url payload true ;;
  raise_for_status response ;;
  ret response.

Definition get_run_status (thread_id run_id : string) : M json :=
  base <- self_base_url ;;
  let url := base +:+ "/threads/" +:+ thread_id +:+ "/runs/" +:+ run_id in
  response <- session_get url None ;;
  raise_for_status response ;;
  response_json response.

Definition cancel_run (thread_id run_id : string)
    (kwargs : list (string * val)) : M unit :=
  kwargs <- new_dict kwargs ;;
  base <- self_base_url ;;
  let url := base +:+ "/threads/" +:+ thread_id +:+ "/runs/" +:+ run_id +:+ "/cancel" in
  response <- session_post url kwargs false ;;
  raise_for_status response.

Definition get_thread_state (thread_id : string) : M json :=
  base <- self_base_url ;;
  let url := base +:+ "/threads/" +:+ thread_id +:+ "/state" in
  response <- session_get url None ;;
  raise_for_status response ;;
  response_json response.

Definition update_thread_state (thread_id : string) (values : val)
    (checkpoint : option val) : M json :=
  let checkpoint := default VNone checkpoint in
  payload <- new_dict [("values", values);
                       ("checkpoint", checkpoint)] ;;
  base <- self_base_url ;;
  let url := base +:+ "/threads/" +:+ thread_id +:+ "/state" in
  response <- session_post url payload false ;;
  raise_for_status response ;;
  response_json response.

Definition put_item (namespace : val) (key : string) (value : val) : M unit :=
  payload <- new_dict [("namespace", namespace);
                       ("key", VStr key);
                       ("value", value)] ;;
  base <- self_base_url ;;
  let url := base +:+ "/store/items" in
  response <- session_put url payload ;;
  raise_for_status response.

Definition get_item (namespace key : option val) : M json :=
  let namespace := default VNone namespace in
  let key := default VNone key in
  base <- self_base_url ;;
  let url := base +:+ "/store/items" in
  params <- new_dict [("namespace", namespace);
                      ("key", key)] ;;
  response <- session_get url (Some params) ;;
  raise_for_status response ;;
  response_json response.

Definition search_items (namespace_prefix filter limit offset : option val) : M json :=
  let namespace_prefix := default VNone namespace_prefix in
  let filter := default VNone filter in
  let limit := default (VInt 10) limit in
  let offset := default (VInt 0) offset in
  payload <- new_dict [("namespace_prefix", namespace_prefix);
                       ("filter", filter);
                       ("limit", limit);
                       ("offset", offset)] ;;
  base <- self_base_url ;;
  let url := base +:+ "/store/items/search" in
  response <- session_post url payload false ;;
  raise_for_status response ;;
  response_json response.

(** [x is not None] *)
Definition is_not_None (v : val) : bool :=
  match v with VNone => false | _ => true end.

Definition create_assistant (graph_id : string)
    (assistant_id config metadata name if_exists : option val) : M json :=
  let assistant_id := default VNone assistant_id in
  let config := default VNone config in
  let metadata := default VNone metadata in
  let name := default VNone name in
  let if_exists := default (VStr "raise") if_exists in
  payload <- new_dict [("graph_id", VStr graph_id);
                       ("if_exists", if_exists)] ;;
  (if is_not_None assistant_id
   then setitem payload "assistant_id" assistant_id else ret tt) ;;
  (if is_not_None config
   then setitem payload "config" config else ret tt) ;;
  (if is_not_None metadata
   then setitem payload "metadata" metadata else ret tt) ;;
  (if is_not_None name
   then setitem payload "name" name else ret tt) ;;
  base <- self_base_url ;;
  let url := base +:+ "/assistants" in
  response <- session_post url payload false ;;
  raise_for_status response ;;
  response_json response.

(** *** One type for all calls *)

Inductive call :=
| RunStateful (assistant_id : string)
    (input_data config checkpoint metadata : option val)
    (kwargs : list (string * val))
| GetAssistantSchema (assistant_id : string)
| RunStateless (assistant_id : string)
    (input_data config metadata : option val) (kwargs : list (string * val))
| StreamRun (assistant_id : string)
    (input_data config metadata : option val) (kwargs : list (string * val))
| GetRunStatus (thread_id run_id : string)
| CancelRun (thread_id run_id : string) (kwargs : list (string * val))
| GetAssistantDetails (assistant_id : string)
| GetThreadState (thread_id : string)
| UpdateThreadState (thread_id : string) (values : val) (checkpoint : option val)
| PutItem (namespace : val) (key : string) (value : val)
| GetItem (namespace key : option val)
| SearchItems (namespace_prefix filter limit offset : option val)
| CreateAssistant (graph_id : string)
    (assistant_id config metadata name if_exists : option val).

Definition exec (c : call) : M result :=
  match c with
  | RunStateful a i cf ck md kw =>
      j <- run_stateful a i cf ck md kw ;; ret (RJson j)
  | GetAssistantSchema a =>
      j <- get_assistant_schema a ;; ret (RJson j)
  | RunStateless a i cf md kw =>
      j <- run_stateless a i cf md kw ;; ret (RJson j)
  | StreamRun a i cf md kw =>
      r <- stream_run a i cf md kw ;; ret (RResponse r)
  | GetRunStatus t r =>
      j <- get_run_status t r ;; ret (RJson j)
  | CancelRun t r kw =>
      cancel_run t r kw ;; ret RNone
  | GetAssistantDetails a =>
      j <- get_assistant_details a ;; ret (RJson j)
  | GetThreadState t =>
      j <- get_thread_state t ;; ret (RJson j)
  | UpdateThreadState t v ck =>
      j <- update_thread_state t v ck ;; ret (RJson j)
  | PutItem ns k v =>
      put_item ns k v ;; ret RNone
  | GetItem ns k =>
      j <- get_item ns k ;; ret (RJson j)
  | SearchItems np f l o =>
      j <- search_items np f l o ;; ret (RJson j)
  | CreateAssistant g a cf md n ie =>
      j <- create_assistant g a cf md n ie ;; ret (RJson j)
  end.
End Client.

(** ** The documented request mapping

    The table of operations of the specification, written down on its own:
    method, path, named body fields, extras and query parameters of every
    call.  The code is compared with it below. *)

Definition spec_method (c : call) : http_method :=
  match c with
  | RunStateful _ _ _ _ _ _ => POST
  | RunStateless _ _ _ _ _ => POST
  | StreamRun _ _ _ _ _ => POST
  | GetRunStatus _ _ => GET
  | CancelRun _ _ _ => POST
  | GetAssistantDetails _ => GET
  | GetAssistantSchema _ => GET
  | GetThreadState _ => GET
  | UpdateThreadState _ _ _ => POST
  | PutItem _ _ _ => PUT
  | GetItem _ _ => GET
  | SearchItems _ _ _ _ => POST
  | CreateAssistant _ _ _ _ _ _ => POST
  end.

Definition spec_path (c : call) : string :=
  match c with
  | RunStateful _ _ _ _ _ _ => "/threads/runs/wait"
  | RunStateless _ _ _ _ _ => "/runs/wait"
  | StreamRun _ _ _ _ _ => "/runs/stream"
  | GetRunStatus t r => "/threads/" +:+ t +:+ "/runs/" +:+ r
  | CancelRun t r _ => "/threads/" +:+ t +:+ "/runs/" +:+ r +:+ "/cancel"
  | GetAssistantDetails a => "/assistants/" +:+ a +:+ "/schemas"
  | GetAssistantSchema a => "/assistants/" +:+ a +:+ "/schemas"
  | GetThreadState t => "/threads/" +:+ t +:+ "/state"
  | UpdateThreadState t _ _ => "/threads/" +:+ t +:+ "/state"
  | PutItem _ _ _ => "/store/items"
  | GetItem _ _ => "/store/items"
  | SearchItems _ _ _ _ => "/store/items/search"
  | CreateAssistant _ _ _ _ _ _ => "/assistants"
  end.

(** An optional parameter as a field that is always there: [None] when the
    caller left it out. *)
Definition nullable (k : string) (v : option val) : list (string * val) :=
  [(k, default VNone v)].

(** An optional parameter as a field that is there only when set. *)
Definition only_if_set (k : string) (v : option val) : list (string * val) :=
  let x := default VNone v in
  if is_not_None x then [(k, x)] else [].

(** The fields a call names itself, in the order of the table. *)
Definition named_fields (c : call) : dict val :=
  match c with
  | RunStateful a i cf ck md _ =>
      ("assistant_id", VStr a) :: nullable "input" i ++ nullable "config" cf
        ++ nullable "checkpoint" ck ++ nullable "metadata" md
  | RunStateless a i cf md _ | StreamRun a i cf md _ =>
      ("assistant_id", VStr a) :: nullable "input" i ++ nullable "config" cf
        ++ nullable "metadata" md
  | UpdateThreadState _ v ck => ("values", v) :: nullable "checkpoint" ck
  | PutItem ns k v => [("namespace", ns); ("key", VStr k); ("value", v)]
  | GetItem ns k => nullable "namespace" ns ++ nullable "key" k
  | SearchItems np f l o =>
      nullable "namespace_prefix" np ++ nullable "filter" f
        ++ [("limit", default (VInt 10) l); ("offset", default (VInt 0) o)]
  | CreateAssistant g a cf md n ie =>
      [("graph_id", VStr g); ("if_exists", default (VStr "raise") ie)]
        ++ only_if_set "assistant_id" a ++ only_if_set "config" cf
        ++ only_if_set "metadata" md ++ only_if_set "name" n
  | CancelRun _ _ _ | GetRunStatus _ _ | GetAssistantDetails _
  | GetAssistantSchema _ | GetThreadState _ => []
  end.

(** The open-ended extra parameters of a call. *)
Definition extras (c : call) : list (string * val) :=
  match c with
  | RunStateful _ _ _ _ _ kw | RunStateless _ _ _ _ kw
  | StreamRun _ _ _ _ kw | CancelRun _ _ kw => kw
  | _ => []
  end.

(** Named fields first, extras merged in afterwards. *)
Definition spec_json (c : call) : option (dict val) :=
  match spec_method c with
  | GET => None
  | _ => Some (dict_update (named_fields c) (dict_of (extras c)))
  end.

Definition spec_params (c : call) : option (dict val) :=
  match c with
  | GetItem _ _ => Some (named_fields c)
  | _ => None
  end.

Definition spec_stream (c : call) : bool :=
  match c with
  | StreamRun _ _ _ _ _ => true
  | _ => false
  end.

Definition spec_request (base : string) (c : call) : request :=
  {| method := spec_method c; url := base +:+ spec_path c;
     json_body := spec_json c; params := spec_params c;
     stream := spec_stream c |}.

(** ** What a call leaves behind *)

(** The objects a call allocates, in allocation order and in their final
    state. *)
Definition allocated (c : call) : list obj :=
  match c with
  | RunStateful _ _ _ _ _ kw | RunStateless _ _ _ _ kw | StreamRun _ _ _ _ kw =>
      [ODict (dict_of kw);
       ODict (dict_update (named_fields c) (dict_of kw))]
  | CancelRun _ _ kw => [ODict (dict_of kw)]
  | UpdateThreadState _ _ _ | PutItem _ _ _ | GetItem _ _
  | SearchItems _ _ _ _ | CreateAssistant _ _ _ _ _ _ =>
      [ODict (named_fields c)]
  | GetRunStatus _ _ | GetAssistantDetails _
  | GetAssistantSchema _ | GetThreadState _ => []
  end.

(** The response object the session builds from a reply. *)
Definition received (streaming : bool) (rp : reply) : response :=
  {| status_code := reply_status rp; text := reply_body rp;
     content_consumed := negb streaming |}.

Section Answer.
Variable loads : string -> option json.

Definition decoded (rp : reply) : outcome json :=
  match loads (reply_body rp) with
  | Some j => Return j
  | None => Raise (JSONDecodeError (reply_body rp))
  end.

(** The value a call produces from a reply that passed the status check. *)
Definition payoff (c : call) (rp : reply) : outcome result :=
  match c with
  | StreamRun _ _ _ _ _ => Return (RResponse (received true rp))
  | CancelRun _ _ _ | PutItem _ _ _ => Return RNone
  | GetAssistantSchema _ =>
      match decoded rp with
      | Return (JObj d) =>
          Return (RJson (default (JObj []) (dict_get "input_schema" d)))
      | Return _ => Raise AttributeError
      | Raise e => Raise e
      end
  | _ =>
      match decoded rp with
      | Return j => Return (RJson j)
      | Raise e => Raise e
      end
  end.

Definition answer (c : call) (rp : reply) : outcome result :=
  if is_http_error (reply_status rp)
  then Raise (HTTPError (received (spec_stream c) rp))
  else payoff c rp.
End Answer.

(** What happens after the request went out: the body is read unless the
    call streams, and [run_stateless] prints when the status check fails. *)
Definition aftermath (c : call) (rp : reply) : list event :=
  (if spec_stream c then [] else [BodyRead rp]) ++
  match c with
  | RunStateless _ _ _ _ _ =>
      if is_http_error (reply_status rp)
      then [Printed [VStr "HTTP Error:"; VInt (reply_status rp);
                     VStr (reply_body rp)]]
      else []
  | _ => []
  end.

(** The whole run of a call, in closed form. *)
Definition summary (loads : string -> option json) (c : call) (w : world)
    : outcome result * world :=
  let sent := Sent (session (self w)) (spec_request (base_url (self w)) c) in
  match inbox w with
  | [] =>
      (Raise ConnectionError,
       {| heap := heap w ++ allocated c; self := self w;
          sessions := sessions w; inbox := [];
          trace := trace w ++ [sent] |})
  | rp :: rest =>
      (answer loads c rp,
       {| heap := heap w ++ allocated c; self := self w;
          sessions := sessions w; inbox := rest;
          trace := trace w ++ sent :: aftermath c rp |})
  end.


(** ** Observing a run *)

(** The events a run added to the trace. *)
Definition emitted {A} (w : world) (r : outcome A * world) : list event :=
  drop (length (trace w)) (trace r.2).

Definition requests_in (evs : list event) : list (session_id * request) :=
  omap (fun e => match e with Sent s rq => Some (s, rq) | _ => None end) evs.

Definition printed_in (evs : list event) : list (list val) :=
  omap (fun e => match e with Printed args => Some args | _ => None end) evs.

Definition body_reads_in (evs : list event) : list reply :=
  omap (fun e => match e with BodyRead rp => Some rp | _ => None end) evs.

(** The JSON bodies that went out. *)
Definition bodies_in (evs : list event) : list (dict val) :=
  omap (fun sr => json_body sr.2) (requests_in evs).

(** ** Parameters left out by the caller *)

Definition unset (k : string) (v : option val) : list string :=
  match v with
  | None => [k]
  | Some _ => []
  end.

(** The body keys of the optional parameters a call does not supply. *)
Definition omitted (c : call) : list string :=
  match c with
  | RunStateful _ i cf ck md _ =>
      unset "input" i ++ unset "config" cf ++ unset "checkpoint" ck
        ++ unset "metadata" md
  | RunStateless _ i cf md _ | StreamRun _ i cf md _ =>
      unset "input" i ++ unset "config" cf ++ unset "metadata" md
  | UpdateThreadState _ _ ck => unset "checkpoint" ck
  | GetItem ns k => unset "namespace" ns ++ unset "key" k
  | SearchItems np f l o =>
      unset "namespace_prefix" np ++ unset "filter" f ++ unset "limit" l
        ++ unset "offset" o
  | CreateAssistant _ a cf md n ie =>
      unset "assistant_id" a ++ unset "config" cf ++ unset "metadata" md
        ++ unset "name" n ++ unset "if_exists" ie
  | _ => []
  end.

(** The POST operations whose body carries every declared key. *)
Definition keeps_every_key (c : call) : bool :=
  match c with
  | RunStateful _ _ _ _ _ _ | RunStateless _ _ _ _ _ | StreamRun _ _ _ _ _
  | UpdateThreadState _ _ _ | SearchItems _ _ _ _ => true
  | _ => false
  end.

(** The operations with open-ended extra parameters. *)
Definition accepts_extras (c : call) : bool :=
  match c with
  | RunStateful _ _ _ _ _ _ | RunStateless _ _ _ _ _ | StreamRun _ _ _ _ _
  | CancelRun _ _ _ => true
  | _ => false
  end.

(** The value an omitted parameter is bound to. *)
Definition default_value (c : call) (k : string) : val :=
  match c with
  | SearchItems _ _ _ _ =>
      if String.eqb k "limit" then VInt 10
      else if String.eqb k "offset" then VInt 0
      else VNone
  | CreateAssistant _ _ _ _ _ _ =>
      if String.eqb k "if_exists" then VStr "raise" else VNone
  | _ => VNone
  end.

(** "Omitted optional parameters appear as null-valued keys": every omitted
    key is in every body sent, with value [None]. *)
Definition omitted_sent_as_null (loads : string -> option json)
    (c : call) (w : world) : Prop :=
  forall k body,
    k ∈ omitted c ->
    body ∈ bodies_in (emitted w (exec loads c w)) ->
    dict_get k body = Some VNone.

(** ** Status classes *)

Definition is_2xx (code : Z) : bool := ((200 <=? code)%Z && (code <? 300)%Z)%bool.

(** An outcome that is the HTTP failure for a reply: it exposes the status
    code and the raw body. *)
Definition http_failure {A} (rp : reply) (o : outcome A) : Prop :=
  exists r, o = Raise (HTTPError r)
            /\ status_code r = reply_status rp /\ text r = reply_body rp.

(** "A non-2xx response makes the call fail with the HTTP failure." *)
Definition fails_on_non_2xx (loads : string -> option json)
    (c : call) (w : world) : Prop :=
  forall rp rest,
    inbox w = rp :: rest ->
    is_2xx (reply_status rp) = false ->
    http_failure rp (exec loads c w).1.

(** The line [run_stateless] prints for a reply. *)
Definition diagnostic (rp : reply) : list val :=
  [VStr "HTTP Error:"; VInt (reply_status rp); VStr (reply_body rp)].

(** "On a non-2xx response [run_stateless] prints the diagnostic and then
    fails with the HTTP failure." *)
Definition diagnoses_non_2xx (loads : string -> option json)
    (c : call) (w : world) : Prop :=
  forall rp rest,
    inbox w = rp :: rest ->
    is_2xx (reply_status rp) = false ->
    printed_in (emitted w (exec loads c w)) = [diagnostic rp]
    /\ http_failure rp (exec loads c w).1.

(** ** Sample data *)

(** A decoder that knows the documents of the examples. *)
Definition sample_documents : list (string * json) :=
  [("{}", JObj []);
   ("[]", JArr []);
   ("<run>", JObj [("run_id", JStr "1234"); ("status", JStr "success")]);
   ("<schemas>",
    JObj [("input_schema", JObj [("type", JStr "object")]);
          ("output_schema", JObj [("type", JStr "object")])]);
   ("<item>", JObj [("key", JStr "k")])].

Definition sample_loads (doc : string) : option json :=
  dict_get doc sample_documents.

Definition blank : world :=
  {| heap := []; self := {| base_url := ""; session := 0 |};
     sessions := 0; inbox := []; trace := [] |}.

(** A client made by [MCPClient("http://localhost:2024")], a caller that
    owns a list [["ns"]] (object 0) and a dict [{"text": "hi"}] (object 1),
    and a service about to answer with [replies]. *)
Definition sample_world (replies : list reply) : world :=
  set_inbox replies
    (set_heap [OList [VStr "ns"]; ODict [("text", VStr "hi")]]
       (init "http://localhost:2024" blank).2).

(** ** Optional parameters of [create_assistant] *)

(** The value a caller set for an optional parameter, if any: leaving the
    parameter out and passing [None] are the same to the callee. *)
Definition supplied (v : option val) : option val :=
  match v with
  | None | Some VNone => None
  | Some x => Some x
  end.

(** A field that is there only for a value that was set. *)
Definition field_if (k : string) (v : option val) : list (string * val) :=
  match v with
  | Some x => [(k, x)]
  | None => []
  end.

(** The dicts that went out, as JSON body or as query parameters. *)
Definition payloads_in (evs : list event) : list (dict val) :=
  flat_map (fun sr => option_list (json_body sr.2) ++ option_list (params sr.2))
    (requests_in evs).

(** ** Kinds of calls *)

(** The operations that end in [return response.json()]. *)
Definition decodes (c : call) : bool :=
  match c with
  | RunStateful _ _ _ _ _ _ | RunStateless _ _ _ _ _ | GetRunStatus _ _
  | GetAssistantDetails _ | GetThreadState _ | UpdateThreadState _ _ _
  | GetItem _ _ | SearchItems _ _ _ _ | CreateAssistant _ _ _ _ _ _ => true
  | _ => false
  end.

(** The operations that end after [response.raise_for_status()]. *)
Definition returns_nothing (c : call) : bool :=
  match c with
  | CancelRun _ _ _ | PutItem _ _ _ => true
  | _ => false
  end.

(** A caller that makes one call after the other on the same client and
    goes on whatever a call returns or raises. *)
Definition run_all (loads : string -> option json) (cs : list call)
    (w : world) : world :=
  foldl (fun w c => (exec loads c w).2) w cs.

(** * Proofs *)

(** ** Dicts *)

Section DictFacts.
Context {V : Type}.
Implicit Types (d e : dict V) (k : string) (v : V).

Lemma dict_get_set k k' v d :
  dict_get k (dict_set k' v d) = if String.eqb k k' then Some v else dict_get k d.
Proof.
  induction d as [|[k0 v0] d IH]; simpl.
  - reflexivity.
  - destruct (String.eqb k' k0) eqn:E'; simpl.
    + apply String.eqb_eq in E' as ->. by destruct (String.eqb k k0).
    + rewrite IH. destruct (String.eqb k k0) eqn:E; [|done].
      apply String.eqb_eq in E as ->.
      rewrite String.eqb_sym in E'. by rewrite E'.
Qed.

Lemma dict_update_snoc d e k v :
  dict_update d (e ++ [(k, v)]) = dict_set k v (dict_update d e).
Proof. unfold dict_update. by rewrite foldl_app. Qed.

(** After [d.update(e)] a key has the value [e] gives it, if any, and its
    value in [d] otherwise. *)
Lemma dict_get_update k d e :
  dict_get k (dict_update d e) =
    match dict_get k (dict_of e) with
    | Some v => Some v
    | None => dict_get k d
    end.
Proof.
  induction e as [|[k' v'] e IH] using rev_ind; [done|].
  unfold dict_of. rewrite !dict_update_snoc, !dict_get_set.
  destruct (String.eqb k k'); [done|]. exact IH.
Qed.

Lemma dict_get_None k d : dict_get k d = None <-> k ∉ d.*1.
Proof.
  induction d as [|[k0 v0] d IH]; simpl.
  - split; [intros _; apply not_elem_of_nil | done].
  - rewrite not_elem_of_cons, <- IH.
    destruct (String.eqb k k0) eqn:E.
    + apply String.eqb_eq in E. split; [done | intros [? _]; done].
    + apply String.eqb_neq in E. tauto.
Qed.

Lemma dict_set_fresh k v d : k ∉ d.*1 -> dict_set k v d = d ++ [(k, v)].
Proof.
  induction d as [|[k0 v0] d IH]; simpl; [done|].
  rewrite not_elem_of_cons. intros [Hne Hd].
  apply String.eqb_neq in Hne. rewrite Hne. by rewrite IH.
Qed.

(** Keyword arguments with distinct names are the dict of themselves. *)
Lemma dict_of_NoDup (items : list (string * V)) :
  NoDup items.*1 -> dict_of items = items.
Proof.
  induction items as [|[k v] items IH] using rev_ind; [done|].
  rewrite fmap_app, NoDup_app. simpl. intros (Hnd & Hfresh & _).
  unfold dict_of in *. rewrite dict_update_snoc, IH by done.
  apply dict_set_fresh. intros Hin. apply (Hfresh k Hin). by left.
Qed.

Lemma dict_set_NoDup k v d : NoDup d.*1 -> NoDup (dict_set k v d).*1.
Proof.
  induction d as [|[k0 v0] d IH]; simpl; intros Hnd.
  - apply NoDup_singleton.
  - apply NoDup_cons in Hnd as [Hk0 Hnd].
    destruct (String.eqb k k0) eqn:E; simpl; apply NoDup_cons; [done|].
    split; [|by apply IH].
    apply dict_get_None. rewrite dict_get_set, String.eqb_sym, E.
    by apply dict_get_None.
Qed.

Lemma dict_update_NoDup d e : NoDup d.*1 -> NoDup (dict_update d e).*1.
Proof.
  intros Hnd. induction e as [|[k v] e IH] using rev_ind; [done|].
  rewrite dict_update_snoc. by apply dict_set_NoDup.
Qed.

(** The dict of a dict is the dict itself. *)
Lemma dict_of_idem (items : list (string * V)) :
  dict_of (dict_of items) = dict_of items.
Proof. apply dict_of_NoDup, dict_update_NoDup, NoDup_nil_2. Qed.

(** Merging extras never removes a key. *)
Lemma dict_update_keeps k d e :
  is_Some (dict_get k d) -> is_Some (dict_get k (dict_update d e)).
Proof.
  intros Hk. rewrite dict_get_update. by destruct (dict_get k (dict_of e)).
Qed.
End DictFacts.

(** ** Symbolic execution of the client *)

Lemma heap_lookup_last (h : list obj) o : (h ++ [o]) !! length h = Some o.
Proof. by apply list_lookup_middle. Qed.

Lemma heap_lookup_prev (h : list obj) a b :
  ((h ++ [a]) ++ [b]) !! length h = Some a.
Proof. rewrite <- app_assoc. by apply list_lookup_middle. Qed.

Lemma heap_insert_last (h : list obj) o o' :
  <[length h := o']> (h ++ [o]) = h ++ [o'].
Proof. rewrite insert_app_r_alt by lia. by rewrite Nat.sub_diag. Qed.

Ltac unfold_client :=
  unfold exec, run_stateful, run_stateless, stream_run, get_run_status,
    cancel_run, get_assistant_schema, get_assistant_details, get_thread_state,
    update_thread_state, put_item, get_item, search_items, create_assistant,
    session_post, session_get, session_put, session_request, response_json,
    response_text, raise_for_status, try_except_HTTPError, print,
    update, setitem, new_dict, entries,
    self_base_url, self_session, bind, ret, raise, set_heap, set_inbox, log.

Ltac crunch := cbn -[length lookup insert dict_update dict_of].

Ltac heap_step :=
  repeat first
    [ rewrite heap_lookup_last
    | rewrite heap_lookup_prev
    | rewrite heap_insert_last ];
  crunch.

Ltac open_run :=
  unfold summary, answer, payoff, decoded, aftermath, spec_request;
  unfold_client; crunch; repeat heap_step.

(** Cases on the reply, on the status check and on the decoder. *)
Ltac close_run loads :=
  match goal with
  | |- context [match ?i with [] => _ | _ :: _ => _ end] =>
      destruct i as [|rp rest]; crunch;
      [| destruct (is_http_error (reply_status rp)); crunch;
         [| try (destruct (loads (reply_body rp)) as [[]|]; crunch)]]
  end;
  rewrite ?app_nil_r, <- ?app_assoc; reflexivity.

Lemma create_assistant_summary loads g a cf md nm ie w :
  exec loads (CreateAssistant g a cf md nm ie) w
  = summary loads (CreateAssistant g a cf md nm ie) w.
Proof.
  destruct w as [h slf n inb tr].
  unfold summary, answer, payoff, decoded, aftermath, spec_request, allocated,
    spec_json, named_fields, only_if_set.
  unfold_client; crunch.
  destruct (is_not_None (default VNone a)), (is_not_None (default VNone cf)),
    (is_not_None (default VNone md)), (is_not_None (default VNone nm)).
  all: crunch; repeat heap_step; close_run loads.
Qed.

(** Every call runs as its summary says. *)
Lemma exec_summary loads c w : exec loads c w = summary loads c w.
Proof.
  destruct c; try apply create_assistant_summary.
  all: destruct w as [h slf n inb tr]; open_run.
  all: try (change (dict_update [] (dict_of ?kw)) with (dict_of (dict_of kw));
            rewrite dict_of_idem).
  all: close_run loads.
Qed.

(** ** What a run shows *)

Lemma requests_in_aftermath c rp : requests_in (aftermath c rp) = [].
Proof.
  unfold aftermath.
  destruct c; simpl; try destruct (is_http_error (reply_status rp)); reflexivity.
Qed.

Lemma emitted_exec loads c w :
  emitted w (exec loads c w)
  = Sent (session (self w)) (spec_request (base_url (self w)) c)
      :: match inbox w with
         | [] => []
         | rp :: _ => aftermath c rp
         end.
Proof.
  rewrite exec_summary. unfold emitted, summary.
  destruct (inbox w); simpl; by rewrite drop_app_length.
Qed.

Lemma requests_exec loads c w :
  requests_in (emitted w (exec loads c w))
  = [(session (self w), spec_request (base_url (self w)) c)].
Proof.
  rewrite emitted_exec. simpl. destruct (inbox w); [done|].
  by rewrite requests_in_aftermath.
Qed.

Lemma bodies_exec loads c w :
  bodies_in (emitted w (exec loads c w)) = option_list (spec_json c).
Proof.
  unfold bodies_in. rewrite requests_exec. simpl. by destruct (spec_json c).
Qed.

Lemma outcome_exec loads c w rp rest :
  inbox w = rp :: rest -> (exec loads c w).1 = answer loads c rp.
Proof. intros Hin. rewrite exec_summary. unfold summary. by rewrite Hin. Qed.

Lemma world_exec loads c w :
  let w' := (exec loads c w).2 in
  heap w' = heap w ++ allocated c /\ self w' = self w
  /\ sessions w' = sessions w /\ inbox w' = tail (inbox w).
Proof. rewrite exec_summary. unfold summary. by destruct (inbox w). Qed.

(** A method and the call that stands for it: same world, same outcome up
    to the tag on the result. *)
Lemma tagged_world {A} (m : M A) (f : A -> result) w :
  ((x <- m ;; ret (f x)) w).2 = (m w).2.
Proof. unfold bind, ret. by destruct (m w) as [[]]. Qed.

Lemma tagged_outcome {A} (m : M A) (f : A -> result) w :
  ((x <- m ;; ret (f x)) w).1
  = match (m w).1 with
    | Return a => Return (f a)
    | Raise e => Raise e
    end.
Proof. unfold bind, ret. by destruct (m w) as [[]]. Qed.

Lemma tagged_Return {A} (m : M A) (f : A -> result) w a :
  (forall x y, f x = f y -> x = y) ->
  ((x <- m ;; ret (f x)) w).1 = Return (f a) -> (m w).1 = Return a.
Proof.
  intros Hinj. rewrite tagged_outcome. destruct (m w).1 as [a0|]; [|done].
  intros H. f_equal. apply Hinj. congruence.
Qed.

Lemma tagged_Raise {A} (m : M A) (f : A -> result) w e :
  ((x <- m ;; ret (f x)) w).1 = Raise e -> (m w).1 = Raise e.
Proof.
  rewrite tagged_outcome. destruct (m w).1; intros H; [discriminate H | congruence].
Qed.

Lemma emitted_tagged {A} (m : M A) (f : A -> result) w :
  emitted w (m w) = emitted w ((x <- m ;; ret (f x)) w).
Proof. unfold emitted. by rewrite tagged_world. Qed.

Lemma RJson_inj x y : RJson x = RJson y -> x = y.
Proof. by intros [= ->]. Qed.

Lemma RResponse_inj x y : RResponse x = RResponse y -> x = y.
Proof. by intros [= ->]. Qed.

(** ** Status classes *)

Lemma is_http_error_spec code : is_http_error code = true <-> (400 <= code < 600)%Z.
Proof. unfold is_http_error. rewrite andb_true_iff, Z.leb_le, Z.ltb_lt. tauto. Qed.

Lemma is_http_error_false code :
  is_http_error code = false <-> ~ (400 <= code < 600)%Z.
Proof. rewrite <- is_http_error_spec. by destruct (is_http_error code). Qed.

Lemma is_2xx_not_error code : is_2xx code = true -> is_http_error code = false.
Proof.
  unfold is_2xx. rewrite andb_true_iff, Z.leb_le, Z.ltb_lt.
  intros. apply is_http_error_false. lia.
Qed.

(** A reply that passes the status check and decodes gives the document. *)
Lemma decoded_answer loads c rp j :
  (forall a, c <> GetAssistantSchema a) ->
  (forall a i cf md kw, c <> StreamRun a i cf md kw) ->
  (forall t r kw, c <> CancelRun t r kw) ->
  (forall ns k v, c <> PutItem ns k v) ->
  is_http_error (reply_status rp) = false ->
  loads (reply_body rp) = Some j ->
  answer loads c rp = Return (RJson j).
Proof.
  intros H1 H2 H3 H4 Hok Hj. unfold answer, payoff, decoded. rewrite Hok, Hj.
  destruct c; try reflexivity.
  - by destruct (H1 assistant_id).
  - by destruct (H2 assistant_id input_data config metadata kwargs).
  - by destruct (H3 thread_id run_id kwargs).
  - by destruct (H4 namespace key value).
Qed.

(** ** The claims *)

(** C1.  Every operation hands the session exactly one request, and that
    request is the documented one: the documented method, the base URL
    followed by the documented path (plain concatenation), the documented
    JSON body and query parameters.  In particular
    [run_stateful(assistant_id="a", input_data="x")] POSTs to
    [base_url + "/threads/runs/wait"] the body
    [{"assistant_id": "a", "input": "x", "config": None, "checkpoint": None,
      "metadata": None}], and on a 2xx reply returns the decoded body. *)
Theorem request_mapping (loads : string -> option json) (c : call) (w : world) :
  requests_in (emitted w (exec loads c w))
  = [(session (self w),
      {| method := spec_method c;
         url := base_url (self w) +:+ spec_path c;
         json_body := spec_json c;
         params := spec_params c;
         stream := spec_stream c |})]
  /\ let run := run_stateful loads "a" (Some (VStr "x")) None None None [] w in
     requests_in (emitted w run)
     = [(session (self w),
         {| method := POST;
            url := base_url (self w) +:+ "/threads/runs/wait";
            json_body := Some [("assistant_id", VStr "a"); ("input", VStr "x");
                               ("config", VNone); ("checkpoint", VNone);
                               ("metadata", VNone)];
            params := None;
            stream := false |})]
     /\ forall rp rest j,
          inbox w = rp :: rest ->
          is_2xx (reply_status rp) = true ->
          loads (reply_body rp) = Some j ->
          run.1 = Return j.
Proof.
  split; [apply requests_exec|].
  set (c0 := RunStateful "a" (Some (VStr "x")) None None None []).
  split.
  - rewrite (emitted_tagged _ RJson). apply (requests_exec loads c0).
  - intros rp rest j Hin H2xx Hj.
    apply (tagged_Return _ RJson); [apply RJson_inj|].
    change ((exec loads c0 w).1 = Return (RJson j)).
    rewrite (outcome_exec loads c0 w rp rest Hin).
    apply decoded_answer; try done. by apply is_2xx_not_error.
Qed.

Lemma request_mapping_witness :
  (run_stateful sample_loads "a" (Some (VStr "x")) None None None []
     (sample_world [{| reply_status := 200; reply_body := "<run>" |}])).1
  = Return (JObj [("run_id", JStr "1234"); ("status", JStr "success")]).
Proof.
  pose proof (request_mapping sample_loads (GetThreadState "1234")
    (sample_world [{| reply_status := 200; reply_body := "<run>" |}])) as H.
  destruct H as [_ [_ H]].
  apply (H {| reply_status := 200; reply_body := "<run>" |} []); reflexivity.
Defined.

(** ** Bodies *)

Lemma only_if_set_supplied k v : only_if_set k v = field_if k (supplied v).
Proof. by destruct v as [[]|]. Qed.

Lemma spec_json_no_extras c :
  extras c = [] -> spec_method c <> GET -> spec_json c = Some (named_fields c).
Proof.
  intros He Hm. unfold spec_json. rewrite He.
  by destruct (spec_method c).
Qed.

(** C3.  The JSON body of [create_assistant] always has [graph_id] and
    [if_exists] (which is "raise" unless the caller says otherwise); each of
    [assistant_id], [config], [metadata] and [name] is in the body with the
    caller's value when the caller set it, and is not in the body at all
    when the caller left it out.  Nothing else is in the body. *)
Theorem create_assistant_body (loads : string -> option json) (g : string)
    (a cf md nm ie : option val) (w : world) :
  let body :=
    [("graph_id", VStr g); ("if_exists", default (VStr "raise") ie)]
      ++ field_if "assistant_id" (supplied a) ++ field_if "config" (supplied cf)
      ++ field_if "metadata" (supplied md) ++ field_if "name" (supplied nm) in
  bodies_in (emitted w (create_assistant loads g a cf md nm ie w)) = [body]
  /\ dict_get "graph_id" body = Some (VStr g)
  /\ dict_get "if_exists" body = Some (default (VStr "raise") ie)
  /\ dict_get "assistant_id" body = supplied a
  /\ dict_get "config" body = supplied cf
  /\ dict_get "metadata" body = supplied md
  /\ dict_get "name" body = supplied nm
  /\ (dict_get "if_exists"
        (default [] (head (bodies_in (emitted w
           (create_assistant loads g a cf md nm None w)))))
      = Some (VStr "raise")).
Proof.
  intros body. split; [|split; [|split; [|split; [|split; [|split; [|split]]]]]].
  - rewrite (emitted_tagged _ RJson).
    rewrite (bodies_exec loads (CreateAssistant g a cf md nm ie)).
    rewrite spec_json_no_extras by done. simpl.
    by rewrite !only_if_set_supplied.
  - reflexivity.
  - reflexivity.
  - subst body.
    by destruct (supplied a), (supplied cf), (supplied md), (supplied nm).
  - subst body.
    by destruct (supplied a), (supplied cf), (supplied md), (supplied nm).
  - subst body.
    by destruct (supplied a), (supplied cf), (supplied md), (supplied nm).
  - subst body.
    by destruct (supplied a), (supplied cf), (supplied md), (supplied nm).
  - rewrite (emitted_tagged _ RJson).
    rewrite (bodies_exec loads (CreateAssistant g a cf md nm None)).
    rewrite spec_json_no_extras by done. reflexivity.
Qed.

(** C4.  For [run_stateful], [run_stateless], [stream_run] and [cancel_run]
    the JSON body is the dict of the named fields updated by the extras: a
    key the extras give has the extras' value in the body, also when it is
    the key of a named field; every other key has the named field's
    value. *)
Theorem extras_merged_after_named (loads : string -> option json)
    (c : call) (w : world) :
  accepts_extras c = true ->
  exists body,
    bodies_in (emitted w (exec loads c w)) = [body]
    /\ body = dict_update (named_fields c) (dict_of (extras c))
    /\ forall k,
         dict_get k body
         = match dict_get k (dict_of (extras c)) with
           | Some v => Some v
           | None => dict_get k (named_fields c)
           end.
Proof.
  intros Hc. exists (dict_update (named_fields c) (dict_of (extras c))).
  split; [|split; [done|]].
  - rewrite bodies_exec. by destruct c.
  - intros k. by rewrite dict_get_update, dict_of_idem.
Qed.

Lemma extras_merged_after_named_witness :
  exists body,
    bodies_in
      (emitted (sample_world [])
         (exec sample_loads
            (RunStateful "a" (Some (VStr "x")) None None None
               [("input", VStr "y"); ("stream_mode", VStr "values")])
            (sample_world [])))
    = [body]
    /\ dict_get "input" body = Some (VStr "y")
    /\ dict_get "assistant_id" body = Some (VStr "a")
    /\ dict_get "stream_mode" body = Some (VStr "values").
Proof.
  destruct (extras_merged_after_named sample_loads
    (RunStateful "a" (Some (VStr "x")) None None None
       [("input", VStr "y"); ("stream_mode", VStr "values")])
    (sample_world []) eq_refl) as (body & Hb & _ & Hget).
  exists body. split; [exact Hb|]. rewrite !Hget. by repeat split.
Defined.

(** C9.  [get_item] sends a GET to [base_url + "/store/items"] with no JSON
    body and with the query-parameter dict
    [{"namespace": namespace, "key": key}]: both keys are always there,
    with [None] for a parameter the caller left out; on a 2xx reply it
    returns the decoded body. *)
Theorem get_item_query (loads : string -> option json)
    (namespace key : option val) (w : world) :
  let run := get_item loads namespace key w in
  requests_in (emitted w run)
  = [(session (self w),
      {| method := GET;
         url := base_url (self w) +:+ "/store/items";
         json_body := None;
         params := Some [("namespace", default VNone namespace);
                         ("key", default VNone key)];
         stream := false |})]
  /\ forall rp rest j,
       inbox w = rp :: rest ->
       is_2xx (reply_status rp) = true ->
       loads (reply_body rp) = Some j ->
       run.1 = Return j.
Proof.
  intros run. subst run. split.
  - rewrite (emitted_tagged _ RJson). apply (requests_exec loads (GetItem namespace key)).
  - intros rp rest j Hin H2xx Hj.
    apply (tagged_Return _ RJson); [apply RJson_inj|].
    change ((exec loads (GetItem namespace key) w).1 = Return (RJson j)).
    rewrite (outcome_exec loads _ w rp rest Hin).
    apply decoded_answer; try done. by apply is_2xx_not_error.
Qed.

Lemma get_item_query_witness :
  let w := sample_world [{| reply_status := 200; reply_body := "<item>" |}] in
  let run := get_item sample_loads (Some (VRef 0)) (Some (VStr "k")) w in
  heap w !! 0 = Some (OList [VStr "ns"])
  /\ requests_in (emitted w run)
     = [(0, {| method := GET;
               url := "http://localhost:2024/store/items";
               json_body := None;
               params := Some [("namespace", VRef 0); ("key", VStr "k")];
               stream := false |})]
  /\ run.1 = Return (JObj [("key", JStr "k")]).
Proof.
  intros w run. split; [reflexivity|].
  destruct (get_item_query sample_loads (Some (VRef 0)) (Some (VStr "k")) w)
    as [Hrq Hres].
  split; [exact Hrq|].
  apply (Hres {| reply_status := 200; reply_body := "<item>" |} []); reflexivity.
Defined.

Lemma dict_get_is_Some {V} k (d : dict V) : k ∈ d.*1 -> is_Some (dict_get k d).
Proof.
  intros Hk. destruct (dict_get k d) eqn:E; [by eexists|].
  by apply dict_get_None in E.
Qed.

Lemma dict_get_dict_of_None {V} k (items : list (string * V)) :
  k ∉ items.*1 -> dict_get k (dict_of items) = None.
Proof.
  induction items as [|[k' v'] items IH] using rev_ind; [done|].
  rewrite fmap_app, not_elem_of_app. simpl. rewrite not_elem_of_cons.
  intros (Hitems & Hne & _).
  unfold dict_of in *. rewrite dict_update_snoc, dict_get_set.
  apply String.eqb_neq in Hne. rewrite Hne. by apply IH.
Qed.

Ltac pick_key H :=
  simpl in H; rewrite ?elem_of_cons, ?elem_of_nil in H;
  repeat (destruct H as [H|H]); try done; subst.

(** C2, as amended.  For [run_stateful], [run_stateless], [stream_run],
    [update_thread_state] and [search_items] no declared key is left out
    of the JSON body.  A parameter the caller does not supply appears under
    its key with the value it defaults to, unless an extra of the same name
    replaces it: that value is [None] for every parameter but [limit] and
    [offset] of [search_items], which appear as 10 and 0. *)
Theorem declared_keys_always_sent (loads : string -> option json)
    (c : call) (w : world) :
  keeps_every_key c = true ->
  exists body,
    bodies_in (emitted w (exec loads c w)) = [body]
    /\ (forall k, k ∈ (named_fields c).*1 -> is_Some (dict_get k body))
    /\ (forall k,
          k ∈ omitted c -> k ∉ (extras c).*1 ->
          dict_get k body = Some (default_value c k))
    /\ (forall k,
          default_value c k <> VNone ->
          exists np f l o,
            c = SearchItems np f l o /\ (k = "limit" \/ k = "offset")).
Proof.
  intros Hc. exists (dict_update (named_fields c) (dict_of (extras c))).
  split; [|split; [|split]].
  - rewrite bodies_exec. by destruct c.
  - intros k Hk. by apply dict_update_keeps, dict_get_is_Some.
  - intros k Hk Hex.
    rewrite dict_get_update, dict_of_idem, dict_get_dict_of_None by done.
    destruct c; try discriminate Hc;
      repeat match goal with o : option val |- _ => destruct o end;
      pick_key Hk; reflexivity.
  - intros k Hk. destruct c; try done.
    simpl in Hk. exists namespace_prefix, filter, limit, offset.
    split; [done|].
    destruct (String.eqb k "limit") eqn:E1;
      [left; by apply String.eqb_eq|].
    destruct (String.eqb k "offset") eqn:E2;
      [right; by apply String.eqb_eq | done].
Qed.

Lemma declared_keys_always_sent_witness :
  exists body,
    bodies_in
      (emitted (sample_world [])
         (exec sample_loads (SearchItems (Some (VRef 0)) None None None)
            (sample_world [])))
    = [body]
    /\ dict_get "namespace_prefix" body = Some (VRef 0)
    /\ dict_get "filter" body = Some VNone
    /\ dict_get "limit" body = Some (VInt 10)
    /\ dict_get "offset" body = Some (VInt 0).
Proof.
  destruct (declared_keys_always_sent sample_loads
    (SearchItems (Some (VRef 0)) None None None) (sample_world []) eq_refl)
    as (body & Hb & _ & Hdef & _).
  exists body. split; [exact Hb|].
  split.
  - rewrite bodies_exec in Hb. injection Hb as <-. reflexivity.
  - split; [|split].
    + apply (Hdef "filter"); [by left | apply not_elem_of_nil].
    + apply (Hdef "limit"); [right; by left | apply not_elem_of_nil].
    + apply (Hdef "offset"); [right; right; by left | apply not_elem_of_nil].
Defined.

(** C2, as stated, fails: [search_items()] sends [limit] and [offset] as 10
    and 0, not as null; and [run_stateful("a", input="y")] sends the extra
    under the key of the parameter [input_data] that was left out. *)
Lemma omitted_not_always_null :
  (keeps_every_key (SearchItems None None None None) = true
   /\ ~ omitted_sent_as_null sample_loads
          (SearchItems None None None None) (sample_world []))
  /\ (keeps_every_key
        (RunStateful "a" None None None None [("input", VStr "y")]) = true
      /\ ~ omitted_sent_as_null sample_loads
             (RunStateful "a" None None None None [("input", VStr "y")])
             (sample_world [])).
Proof.
  split; (split; [reflexivity|]); intros H.
  - specialize (H "limit"
      [("namespace_prefix", VNone); ("filter", VNone);
       ("limit", VInt 10); ("offset", VInt 0)]).
    discriminate H.
    + right; right; by left.
    + rewrite bodies_exec. by left.
  - specialize (H "input"
      [("assistant_id", VStr "a"); ("input", VStr "y"); ("config", VNone);
       ("checkpoint", VNone); ("metadata", VNone)]).
    discriminate H.
    + by left.
    + rewrite bodies_exec. by left.
Qed.

(** ** Failures *)

Lemma answer_error loads c rp :
  is_http_error (reply_status rp) = true ->
  answer loads c rp = Raise (HTTPError (received (spec_stream c) rp)).
Proof. intros H. unfold answer. by rewrite H. Qed.

Lemma answer_no_http_error loads c rp r :
  is_http_error (reply_status rp) = false ->
  answer loads c rp <> Raise (HTTPError r).
Proof.
  intros H. unfold answer, payoff, decoded. rewrite H.
  destruct c; try done; by destruct (loads (reply_body rp)) as [[]|].
Qed.

Lemma printed_in_aftermath c rp :
  printed_in (aftermath c rp)
  = match c with
    | RunStateless _ _ _ _ _ =>
        if is_http_error (reply_status rp) then [diagnostic rp] else []
    | _ => []
    end.
Proof.
  unfold aftermath.
  destruct c; simpl; try destruct (is_http_error (reply_status rp)); reflexivity.
Qed.

Lemma printed_exec loads c w rp rest :
  inbox w = rp :: rest ->
  printed_in (emitted w (exec loads c w))
  = match c with
    | RunStateless _ _ _ _ _ =>
        if is_http_error (reply_status rp) then [diagnostic rp] else []
    | _ => []
    end.
Proof.
  intros Hin. rewrite emitted_exec, Hin.
  change (printed_in (Sent ?s ?rq :: ?l)) with (printed_in l).
  apply printed_in_aftermath.
Qed.

(** C5, as amended.  For any operation, a reply with a status from 400 to
    599 makes the call raise the HTTP failure, which carries the status code
    and the raw body, and no result is returned; the failure is the same
    for every status in that range and whatever the body would decode to.
    A reply with any other status is never turned into an HTTP failure. *)
Theorem http_error_raises (loads : string -> option json) (c : call)
    (w : world) (rp : reply) (rest : list reply) :
  inbox w = rp :: rest ->
  ((400 <= reply_status rp < 600)%Z ->
     (exec loads c w).1 = Raise (HTTPError (received (spec_stream c) rp))
     /\ http_failure rp (exec loads c w).1
     /\ forall loads', (exec loads' c w).1 = (exec loads c w).1)
  /\ (~ (400 <= reply_status rp < 600)%Z ->
      forall r, (exec loads c w).1 <> Raise (HTTPError r)).
Proof.
  intros Hin. split.
  - intros Hs. apply is_http_error_spec in Hs.
    rewrite (outcome_exec loads c w rp rest Hin), answer_error by done.
    split; [done|]. split.
    + by eexists.
    + intros loads'. rewrite (outcome_exec loads' c w rp rest Hin).
      by apply answer_error.
  - intros Hs r. apply is_http_error_false in Hs.
    rewrite (outcome_exec loads c w rp rest Hin).
    by apply answer_no_http_error.
Qed.

Lemma http_error_raises_witness :
  (exec sample_loads
     (RunStateful "my_assistant" (Some (VRef 1)) None None None [])
     (sample_world [{| reply_status := 400; reply_body := "Invalid input" |}])).1
  = Raise (HTTPError {| status_code := 400; text := "Invalid input";
                        content_consumed := true |}).
Proof.
  destruct (http_error_raises sample_loads
    (RunStateful "my_assistant" (Some (VRef 1)) None None None [])
    (sample_world [{| reply_status := 400; reply_body := "Invalid input" |}])
    {| reply_status := 400; reply_body := "Invalid input" |} [] eq_refl)
    as [Herr _].
  apply Herr. simpl. lia.
Defined.

(** C5, as stated, fails: a reply with status 300 is not a 2xx reply, and
    [get_run_status] returns its decoded body. *)
Lemma non_2xx_can_succeed :
  (exec sample_loads (GetRunStatus "1234" "5678")
     (sample_world [{| reply_status := 300; reply_body := "<run>" |}])).1
  = Return (RJson (JObj [("run_id", JStr "1234"); ("status", JStr "success")]))
  /\ ~ fails_on_non_2xx sample_loads (GetRunStatus "1234" "5678")
         (sample_world [{| reply_status := 300; reply_body := "<run>" |}]).
Proof.
  split; [reflexivity|]. intros H.
  destruct (H {| reply_status := 300; reply_body := "<run>" |} [] eq_refl eq_refl)
    as (r & Hr & _).
  discriminate Hr.
Qed.

(** C6, as amended.  [stream_run] POSTs to [base_url + "/runs/stream"] with
    [stream=True] and does nothing else to the outside: the body of the
    reply is not read.  For a status from 400 to 599 it raises the HTTP
    failure, for any other status it returns the response object, whose
    body is still unread in both cases. *)
Theorem stream_run_returns_unread_response (assistant_id : string)
    (input_data config metadata : option val) (kwargs : list (string * val))
    (w : world) (rp : reply) (rest : list reply) :
  inbox w = rp :: rest ->
  let run := stream_run assistant_id input_data config metadata kwargs w in
  let handle := {| status_code := reply_status rp; text := reply_body rp;
                   content_consumed := false |} in
  emitted w run
  = [Sent (session (self w))
       {| method := POST;
          url := base_url (self w) +:+ "/runs/stream";
          json_body :=
            Some (dict_update
                    [("assistant_id", VStr assistant_id);
                     ("input", default VNone input_data);
                     ("config", default VNone config);
                     ("metadata", default VNone metadata)]
                    (dict_of kwargs));
          params := None;
          stream := true |}]
  /\ body_reads_in (emitted w run) = []
  /\ inbox run.2 = rest
  /\ ((400 <= reply_status rp < 600)%Z -> run.1 = Raise (HTTPError handle))
  /\ (~ (400 <= reply_status rp < 600)%Z -> run.1 = Return handle).
Proof.
  intros Hin run handle. subst run.
  set (loads := fun _ : string => @None json).
  set (c := StreamRun assistant_id input_data config metadata kwargs).
  assert (Hem : emitted w (stream_run assistant_id input_data config metadata kwargs w)
                = emitted w (exec loads c w))
    by apply (emitted_tagged _ RResponse).
  rewrite Hem, emitted_exec, Hin.
  split; [reflexivity|]. split; [reflexivity|]. split; [|split].
  - rewrite <- (tagged_world _ RResponse).
    change (inbox (exec loads c w).2 = rest).
    destruct (world_exec loads c w) as (_ & _ & _ & ->). by rewrite Hin.
  - intros Hs. apply is_http_error_spec in Hs.
    apply (tagged_Raise _ RResponse).
    change ((exec loads c w).1 = Raise (HTTPError handle)).
    rewrite (outcome_exec loads c w rp rest Hin). by apply answer_error.
  - intros Hs. apply is_http_error_false in Hs.
    apply (tagged_Return _ RResponse); [apply RResponse_inj|].
    change ((exec loads c w).1 = Return (RResponse handle)).
    rewrite (outcome_exec loads c w rp rest Hin).
    unfold answer. by rewrite Hs.
Qed.

Lemma stream_run_returns_unread_response_witness :
  (stream_run "my_assistant" (Some (VRef 1)) None None []
     (sample_world [{| reply_status := 200; reply_body := "data: hi" |}])).1
  = Return {| status_code := 200; text := "data: hi";
              content_consumed := false |}.
Proof.
  destruct (stream_run_returns_unread_response
    "my_assistant" (Some (VRef 1)) None None []
    (sample_world [{| reply_status := 200; reply_body := "data: hi" |}])
    {| reply_status := 200; reply_body := "data: hi" |} [] eq_refl)
    as (_ & _ & _ & _ & Hok).
  apply Hok. simpl. lia.
Defined.

(** C6, as stated, fails: on a reply with status 300, which is not a 2xx
    status, [stream_run] does not raise and returns the response. *)
Lemma stream_run_passes_non_2xx :
  (stream_run "my_assistant" None None None []
     (sample_world [{| reply_status := 300; reply_body := "choices" |}])).1
  = Return {| status_code := 300; text := "choices"; content_consumed := false |}
  /\ ~ fails_on_non_2xx sample_loads (StreamRun "my_assistant" None None None [])
         (sample_world [{| reply_status := 300; reply_body := "choices" |}]).
Proof.
  split; [reflexivity|]. intros H.
  destruct (H {| reply_status := 300; reply_body := "choices" |} [] eq_refl eq_refl)
    as (r & Hr & _).
  discriminate Hr.
Qed.

(** C7, as amended.  On a reply with a status from 400 to 599
    [run_stateless] sends its request, reads the body, prints
    ["HTTP Error:"], the status code and the body, and then raises the HTTP
    failure every other operation raises for that reply.  On any other
    status it prints nothing.  No other operation ever prints. *)
Theorem run_stateless_logs_then_raises (loads : string -> option json)
    (assistant_id : string) (input_data config metadata : option val)
    (kwargs : list (string * val)) (w : world) (rp : reply) (rest : list reply) :
  inbox w = rp :: rest ->
  let run := run_stateless loads assistant_id input_data config metadata kwargs w in
  ((400 <= reply_status rp < 600)%Z ->
     (exists rq,
        emitted w run
        = [Sent (session (self w)) rq; BodyRead rp;
           Printed [VStr "HTTP Error:"; VInt (reply_status rp);
                    VStr (reply_body rp)]])
     /\ run.1 = Raise (HTTPError (received false rp))
     /\ (forall c, http_failure rp (exec loads c w).1)
     /\ (forall c, spec_stream c = false ->
                   (exec loads c w).1 = Raise (HTTPError (received false rp))))
  /\ (~ (400 <= reply_status rp < 600)%Z -> printed_in (emitted w run) = [])
  /\ (forall c,
        printed_in (emitted w (exec loads c w)) <> [] ->
        exists a i cf md kw, c = RunStateless a i cf md kw).
Proof.
  intros Hin run. subst run.
  set (c0 := RunStateless assistant_id input_data config metadata kwargs).
  assert (Hem : emitted w (run_stateless loads assistant_id input_data config
                             metadata kwargs w)
                = emitted w (exec loads c0 w))
    by apply (emitted_tagged _ RJson).
  rewrite Hem. split; [|split].
  - intros Hs. apply is_http_error_spec in Hs.
    split; [|split; [|split]].
    + rewrite emitted_exec, Hin.
      eexists. unfold aftermath. simpl. by rewrite Hs.
    + apply (tagged_Raise _ RJson).
      change ((exec loads c0 w).1 = Raise (HTTPError (received false rp))).
      rewrite (outcome_exec loads c0 w rp rest Hin). by apply answer_error.
    + intros c. rewrite (outcome_exec loads c w rp rest Hin), answer_error by done.
      by eexists.
    + intros c Hc. rewrite (outcome_exec loads c w rp rest Hin), answer_error by done.
      by rewrite Hc.
  - intros Hs. apply is_http_error_false in Hs.
    rewrite (printed_exec loads c0 w rp rest Hin). simpl. by rewrite Hs.
  - intros c Hp. rewrite (printed_exec loads c w rp rest Hin) in Hp.
    destruct c; try done. by repeat eexists.
Qed.

Lemma run_stateless_logs_then_raises_witness :
  let w := sample_world [{| reply_status := 400; reply_body := "Invalid input" |}] in
  let run := run_stateless sample_loads "my_assistant" (Some (VRef 1)) None None [] w in
  printed_in (emitted w run)
  = [[VStr "HTTP Error:"; VInt 400; VStr "Invalid input"]]
  /\ run.1 = Raise (HTTPError {| status_code := 400; text := "Invalid input";
                                 content_consumed := true |}).
Proof.
  intros w run.
  destruct (run_stateless_logs_then_raises sample_loads
    "my_assistant" (Some (VRef 1)) None None [] w
    {| reply_status := 400; reply_body := "Invalid input" |} [] eq_refl)
    as (Herr & _ & _).
  destruct Herr as ((rq & Hem) & Hout & _); [simpl; lia|].
  split; [|exact Hout].
  subst run. rewrite Hem. reflexivity.
Defined.

(** C7, as stated, fails: on a reply with status 300, which is not a 2xx
    status, [run_stateless] prints nothing and returns the decoded body. *)
Lemma run_stateless_silent_on_3xx :
  let w := sample_world [{| reply_status := 300; reply_body := "{}" |}] in
  printed_in (emitted w (run_stateless sample_loads "a" None None None [] w)) = []
  /\ (run_stateless sample_loads "a" None None None [] w).1 = Return (JObj [])
  /\ ~ diagnoses_non_2xx sample_loads (RunStateless "a" None None None []) w.
Proof.
  intros w. split; [reflexivity|]. split; [reflexivity|]. intros H.
  destruct (H {| reply_status := 300; reply_body := "{}" |} [] eq_refl eq_refl)
    as (Hp & _).
  discriminate Hp.
Qed.

(** C8.  [get_assistant_schema] makes the one request of
    [get_assistant_details], a GET to
    [base_url + "/assistants/" + assistant_id + "/schemas"], and leaves the
    same world behind; when the details are a JSON object it returns their
    ["input_schema"] member, or an empty object when there is no such
    member; a failure of [get_assistant_details] is passed on. *)
Theorem get_assistant_schema_of_details (loads : string -> option json)
    (assistant_id : string) (w : world) :
  let details := get_assistant_details loads assistant_id w in
  let schema := get_assistant_schema loads assistant_id w in
  requests_in (emitted w schema)
  = [(session (self w),
      {| method := GET;
         url := base_url (self w) +:+ "/assistants/" +:+ assistant_id +:+ "/schemas";
         json_body := None; params := None; stream := false |})]
  /\ schema.2 = details.2
  /\ (forall d s,
        details.1 = Return (JObj d) -> dict_get "input_schema" d = Some s ->
        schema.1 = Return s)
  /\ (forall d,
        details.1 = Return (JObj d) -> dict_get "input_schema" d = None ->
        schema.1 = Return (JObj []))
  /\ (forall e, details.1 = Raise e -> schema.1 = Raise e).
Proof.
  intros details schema.
  assert (Hw : schema.2 = details.2).
  { subst schema details. unfold get_assistant_schema, bind.
    destruct (get_assistant_details loads assistant_id w) as [[[]|] w']; done. }
  split; [|split; [done|]].
  - unfold emitted. rewrite Hw. subst details.
    rewrite <- (tagged_world _ RJson).
    apply (requests_exec loads (GetAssistantDetails assistant_id)).
  - subst schema details. unfold get_assistant_schema, bind.
    destruct (get_assistant_details loads assistant_id w) as [[j|e] w']; simpl.
    + split; [|split]; [intros d s [= ->] Hs | intros d [= ->] Hs | done];
        by rewrite Hs.
    + split; [|split]; [done | done | by intros e' [= ->]].
Qed.

Lemma get_assistant_schema_of_details_witness :
  (get_assistant_schema sample_loads "my_assistant"
     (sample_world [{| reply_status := 200; reply_body := "<schemas>" |}])).1
  = Return (JObj [("type", JStr "object")])
  /\ (get_assistant_schema sample_loads "my_assistant"
        (sample_world [{| reply_status := 200; reply_body := "{}" |}])).1
     = Return (JObj []).
Proof.
  split.
  - destruct (get_assistant_schema_of_details sample_loads "my_assistant"
      (sample_world [{| reply_status := 200; reply_body := "<schemas>" |}]))
      as (_ & _ & Hsome & _).
    apply (Hsome [("input_schema", JObj [("type", JStr "object")]);
                  ("output_schema", JObj [("type", JStr "object")])]);
      reflexivity.
  - destruct (get_assistant_schema_of_details sample_loads "my_assistant"
      (sample_world [{| reply_status := 200; reply_body := "{}" |}]))
      as (_ & _ & _ & Hnone & _).
    apply (Hnone []); reflexivity.
Defined.

(** ** Frame *)

Lemma named_fields_NoDup c : NoDup (named_fields c).*1.
Proof.
  destruct c; simpl; unfold only_if_set;
    repeat match goal with
           | |- context [is_not_None ?v] => destruct (is_not_None v)
           end;
    simpl; refine (bool_decide_unpack _ _); vm_compute; exact I.
Qed.

Lemma dict_get_elem_of {V} k v (d : dict V) :
  NoDup d.*1 -> (k, v) ∈ d -> dict_get k d = Some v.
Proof.
  induction d as [|[k0 v0] d IH]; simpl; intros Hnd Hin.
  - by apply elem_of_nil in Hin.
  - apply NoDup_cons in Hnd as [Hk0 Hnd].
    apply elem_of_cons in Hin as [[= -> ->]|Hin].
    + by rewrite String.eqb_refl.
    + destruct (String.eqb k k0) eqn:E; [|by apply IH].
      apply String.eqb_eq in E as ->. destruct Hk0.
      apply list_elem_of_fmap. by exists (k0, v).
  Qed.

Lemma payloads_exec loads c w :
  payloads_in (emitted w (exec loads c w))
  = option_list (spec_json c) ++ option_list (spec_params c).
Proof.
  unfold payloads_in. rewrite requests_exec. simpl. by rewrite app_nil_r.
Qed.

(** C10.  A call leaves the attributes of the client as they are, also
    right after construction; it leaves every object that was in the store
    as it is and only adds the dicts it builds itself; what it sends, what
    it returns and what it adds are the same whatever the objects of the
    store contain; and every named argument is in the dict that goes out
    under its key, as it was passed, unless an extra has that key. *)
Theorem calls_leave_client_and_arguments_alone
    (loads : string -> option json) (c : call) (w : world) :
  let w' := (exec loads c w).2 in
  self w' = self w
  /\ (forall b,
        self (exec loads c (init b w).2).2
        = {| base_url := b; session := sessions w |})
  /\ heap w' = heap w ++ allocated c
  /\ (forall l o, heap w !! l = Some o -> heap w' !! l = Some o)
  /\ (forall h,
        (exec loads c (set_heap h w)).1 = (exec loads c w).1
        /\ trace (exec loads c (set_heap h w)).2 = trace w'
        /\ heap (exec loads c (set_heap h w)).2 = h ++ allocated c)
  /\ (forall k v d,
        (k, v) ∈ named_fields c -> k ∉ (extras c).*1 ->
        d ∈ payloads_in (emitted w (exec loads c w)) ->
        dict_get k d = Some v).
Proof.
  intros w'. subst w'.
  destruct (world_exec loads c w) as (Hheap & Hself & _).
  split; [done|]. split; [|split; [done|split; [|split]]].
  - intros b. by destruct (world_exec loads c (init b w).2) as (_ & -> & _).
  - intros l o Hl. rewrite Hheap. by apply lookup_app_l_Some.
  - intros h. rewrite !exec_summary. unfold summary. simpl.
    by destruct (inbox w).
  - intros k v d Hkv Hex. rewrite payloads_exec.
    assert (Hnamed : dict_get k (named_fields c) = Some v)
      by (apply dict_get_elem_of; [apply named_fields_NoDup | done]).
    assert (Hmerged : dict_get k (dict_update (named_fields c) (dict_of (extras c)))
                      = Some v)
      by (by rewrite dict_get_update, dict_of_idem, dict_get_dict_of_None).
    unfold spec_json, spec_params.
    intros Hd. apply elem_of_app in Hd.
    destruct c; simpl spec_method in Hd; cbv iota in Hd;
      simpl option_list in Hd;
      rewrite ?elem_of_cons, ?elem_of_nil in Hd;
      destruct_or?; try done; subst d;
      first [exact Hmerged | exact Hnamed].
Qed.

Lemma calls_leave_client_and_arguments_alone_witness :
  let w := sample_world [{| reply_status := 200; reply_body := "<run>" |}] in
  let c := RunStateful "my_assistant" (Some (VRef 1)) (Some (VRef 1)) None None
             [("multitask_strategy", VStr "reject")] in
  heap (exec sample_loads c w).2 !! 1 = Some (ODict [("text", VStr "hi")])
  /\ self (exec sample_loads c w).2
     = {| base_url := "http://localhost:2024"; session := 0 |}
  /\ bodies_in (emitted w (exec sample_loads c w))
     = [[("assistant_id", VStr "my_assistant"); ("input", VRef 1);
         ("config", VRef 1); ("checkpoint", VNone); ("metadata", VNone);
         ("multitask_strategy", VStr "reject")]].
Proof.
  intros w c.
  destruct (calls_leave_client_and_arguments_alone sample_loads c w)
    as (Hself & _ & _ & Hkeep & _).
  split; [|split].
  - apply Hkeep. reflexivity.
  - rewrite Hself. reflexivity.
  - reflexivity.
Defined.


(** * Further properties of the client *)

(** ** What comes back *)

(** [cancel_run] and [put_item] never decode the reply: on any status
    outside 400 to 599 they return [None], whatever the body is. *)
Theorem calls_without_result_ignore_body (loads : string -> option json)
    (c : call) (w : world) (rp : reply) (rest : list reply) :
  returns_nothing c = true ->
  inbox w = rp :: rest ->
  ~ (400 <= reply_status rp < 600)%Z ->
  (exec loads c w).1 = Return RNone.
Proof.
  intros Hc Hin Hs. apply is_http_error_false in Hs.
  rewrite (outcome_exec loads c w rp rest Hin). unfold answer. rewrite Hs.
  by destruct c.
Qed.

Lemma calls_without_result_ignore_body_witness :
  (exec sample_loads (PutItem (VRef 0) "my_key" (VRef 1))
     (sample_world [{| reply_status := 204; reply_body := "" |}])).1
  = Return RNone.
Proof.
  apply (calls_without_result_ignore_body sample_loads
           (PutItem (VRef 0) "my_key" (VRef 1))
           (sample_world [{| reply_status := 204; reply_body := "" |}])
           {| reply_status := 204; reply_body := "" |} []);
    [reflexivity | reflexivity | simpl; lia].
Defined.

(** An operation that returns [response.json()] gives, on any status outside
    400 to 599, the decoded body when the body is a JSON document and raises
    the decoder's error carrying the body when it is not. *)
Theorem decoding_calls_return_or_raise (loads : string -> option json)
    (c : call) (w : world) (rp : reply) (rest : list reply) :
  decodes c = true ->
  inbox w = rp :: rest ->
  ~ (400 <= reply_status rp < 600)%Z ->
  (exec loads c w).1
  = match loads (reply_body rp) with
    | Some j => Return (RJson j)
    | None => Raise (JSONDecodeError (reply_body rp))
    end.
Proof.
  intros Hc Hin Hs. apply is_http_error_false in Hs.
  rewrite (outcome_exec loads c w rp rest Hin).
  unfold answer, payoff, decoded. rewrite Hs.
  destruct c; try discriminate Hc; by destruct (loads (reply_body rp)).
Qed.

Lemma decoding_calls_return_or_raise_witness :
  (exec sample_loads (GetThreadState "1234")
     (sample_world [{| reply_status := 204; reply_body := "" |}])).1
  = Raise (JSONDecodeError "").
Proof.
  apply (decoding_calls_return_or_raise sample_loads (GetThreadState "1234")
           (sample_world [{| reply_status := 204; reply_body := "" |}])
           {| reply_status := 204; reply_body := "" |} []);
    [reflexivity | reflexivity | simpl; lia].
Defined.

(** A failure of the transport is passed on by every operation as it is:
    the request was handed to the session, nothing was read and nothing was
    printed, also by [run_stateless], whose handler only covers the status
    check. *)
Theorem transport_failure_is_passed_on (loads : string -> option json)
    (c : call) (w : world) :
  inbox w = [] ->
  (exec loads c w).1 = Raise ConnectionError
  /\ emitted w (exec loads c w)
     = [Sent (session (self w)) (spec_request (base_url (self w)) c)].
Proof.
  intros Hin. split.
  - rewrite exec_summary. unfold summary. by rewrite Hin.
  - rewrite emitted_exec. by rewrite Hin.
Qed.

Lemma transport_failure_is_passed_on_witness :
  (exec sample_loads (RunStateless "a" None None None []) (sample_world [])).1
  = Raise ConnectionError
  /\ printed_in
       (emitted (sample_world [])
          (exec sample_loads (RunStateless "a" None None None [])
             (sample_world [])))
     = [].
Proof.
  destruct (transport_failure_is_passed_on sample_loads
              (RunStateless "a" None None None []) (sample_world []) eq_refl)
    as [Hout Hem].
  split; [exact Hout|]. rewrite Hem. reflexivity.
Defined.


(** When the details decode to something that is not a JSON object,
    [get_assistant_schema] raises the error of the missing [get] method. *)
Theorem get_assistant_schema_needs_object (loads : string -> option json)
    (assistant_id : string) (w : world) (j : json) :
  (get_assistant_details loads assistant_id w).1 = Return j ->
  (forall d, j <> JObj d) ->
  (get_assistant_schema loads assistant_id w).1 = Raise AttributeError.
Proof.
  intros Hj Hno. unfold get_assistant_schema, bind.
  destruct (get_assistant_details loads assistant_id w) as [[j'|e] w'];
    simpl in *; [|done].
  injection Hj as ->. destruct j; try done. by destruct (Hno members).
Qed.

Lemma get_assistant_schema_needs_object_witness :
  (get_assistant_schema sample_loads "my_assistant"
     (sample_world [{| reply_status := 200; reply_body := "[]" |}])).1
  = Raise AttributeError.
Proof.
  apply (get_assistant_schema_needs_object sample_loads "my_assistant"
           (sample_world [{| reply_status := 200; reply_body := "[]" |}])
           (JArr [])); [reflexivity | done].
Defined.

(** ** What goes out *)

(** [search_items] sends exactly four keys: the two filters, [None] when
    left out, and [limit] and [offset], which are 10 and 0 unless the caller
    gives them. *)
Theorem search_items_body (loads : string -> option json)
    (namespace_prefix filter limit offset : option val) (w : world) :
  bodies_in (emitted w (search_items loads namespace_prefix filter limit offset w))
  = [[("namespace_prefix", default VNone namespace_prefix);
      ("filter", default VNone filter);
      ("limit", default (VInt 10) limit);
      ("offset", default (VInt 0) offset)]].
Proof.
  rewrite (emitted_tagged _ RJson).
  apply (bodies_exec loads (SearchItems namespace_prefix filter limit offset)).
Qed.



(** Every extra the caller passes (keyword names are distinct) is in the
    JSON body under its name with its value. *)
Theorem extras_all_sent (loads : string -> option json) (c : call)
    (w : world) (k : string) (v : val) :
  accepts_extras c = true ->
  NoDup (extras c).*1 ->
  (k, v) ∈ extras c ->
  exists body,
    bodies_in (emitted w (exec loads c w)) = [body]
    /\ dict_get k body = Some v.
Proof.
  intros Hc Hnd Hkv.
  exists (dict_update (named_fields c) (dict_of (extras c))). split.
  - rewrite bodies_exec. by destruct c.
  - rewrite dict_get_update, dict_of_idem, dict_of_NoDup by done.
    by rewrite (dict_get_elem_of k v (extras c)).
Qed.

Lemma extras_all_sent_witness :
  exists body,
    bodies_in
      (emitted (sample_world [])
         (exec sample_loads
            (RunStateless "a" None None None
               [("checkpoint", VRef 1); ("interrupt_before", VRef 0)])
            (sample_world [])))
    = [body]
    /\ dict_get "interrupt_before" body = Some (VRef 0).
Proof.
  apply (extras_all_sent sample_loads
           (RunStateless "a" None None None
              [("checkpoint", VRef 1); ("interrupt_before", VRef 0)])
           (sample_world []) "interrupt_before" (VRef 0)).
  - reflexivity.
  - refine (bool_decide_unpack _ _). vm_compute. exact I.
  - right. by left.
Defined.

(** The JSON body of [cancel_run] is the dict of its extras and nothing
    else; without extras it is the empty dict, which is still sent. *)
Theorem cancel_run_body (thread_id run_id : string)
    (kwargs : list (string * val)) (w : world) :
  NoDup kwargs.*1 ->
  bodies_in (emitted w (cancel_run thread_id run_id kwargs w)) = [kwargs].
Proof.
  intros Hnd.
  rewrite (emitted_tagged _ (fun _ => RNone)).
  change (bodies_in (emitted w (exec (fun _ => None)
                                  (CancelRun thread_id run_id kwargs) w))
          = [kwargs]).
  rewrite bodies_exec. unfold spec_json. simpl.
  change (dict_update [] (dict_of kwargs)) with (dict_of (dict_of kwargs)).
  by rewrite dict_of_idem, dict_of_NoDup.
Qed.

Lemma cancel_run_body_witness :
  bodies_in (emitted (sample_world [])
               (cancel_run "1234" "5678" [] (sample_world [])))
  = [[]].
Proof.
  apply (cancel_run_body "1234" "5678" [] (sample_world [])), NoDup_nil_2.
Defined.


(** ** URLs *)

Lemma string_app_assoc (s1 s2 s3 : string) :
  (s1 +:+ s2) +:+ s3 = s1 +:+ (s2 +:+ s3).
Proof.
  induction s1 as [|a s1 IH]; [done|].
  change (String a ((s1 +:+ s2) +:+ s3) = String a (s1 +:+ (s2 +:+ s3))).
  by rewrite IH.
Qed.

(** Identifiers are put into the path as they are, with no escaping: a run
    id that ends in ["/state"] makes [get_run_status] send the request
    [get_thread_state] sends for the thread id [t + "/runs/" + r]. *)
Theorem path_parameters_are_not_escaped (loads : string -> option json)
    (t r : string) (w : world) :
  requests_in (emitted w (get_run_status loads t (r +:+ "/state") w))
  = requests_in (emitted w (get_thread_state loads (t +:+ "/runs/" +:+ r) w)).
Proof.
  rewrite (emitted_tagged (get_run_status loads t (r +:+ "/state")) RJson).
  rewrite (emitted_tagged (get_thread_state loads (t +:+ "/runs/" +:+ r)) RJson).
  change (requests_in (emitted w (exec loads (GetRunStatus t (r +:+ "/state")) w))
          = requests_in
              (emitted w (exec loads (GetThreadState (t +:+ "/runs/" +:+ r)) w))).
  rewrite !requests_exec. unfold spec_request. simpl.
  do 3 f_equal. by rewrite !string_app_assoc.
Qed.

(** ** Calls in sequence *)

Lemma trace_exec loads c w :
  trace (exec loads c w).2 = trace w ++ emitted w (exec loads c w).
Proof.
  rewrite emitted_exec, exec_summary. unfold summary.
  by destruct (inbox w).
Qed.

Lemma run_all_trace loads cs :
  forall w,
    exists evs,
      trace (run_all loads cs w) = trace w ++ evs
      /\ requests_in evs
         = map (fun c => (session (self w), spec_request (base_url (self w)) c)) cs
      /\ self (run_all loads cs w) = self w
      /\ inbox (run_all loads cs w) = drop (length cs) (inbox w).
Proof.
  induction cs as [|c cs IH]; intros w.
  - exists []. by rewrite app_nil_r.
  - destruct (IH (exec loads c w).2) as (evs & Htr & Hrq & Hself & Hin).
    destruct (world_exec loads c w) as (_ & Hself1 & _ & Hin1).
    exists (emitted w (exec loads c w) ++ evs).
    change (run_all loads (c :: cs) w) with (run_all loads cs (exec loads c w).2).
    split; [|split; [|split]].
    + by rewrite Htr, trace_exec, app_assoc.
    + unfold requests_in at 1. rewrite omap_app.
      fold (requests_in (emitted w (exec loads c w))). fold (requests_in evs).
      by rewrite requests_exec, Hrq, Hself1.
    + by rewrite Hself.
    + rewrite Hin, Hin1. destruct (inbox w); simpl; [by rewrite drop_nil | done].
Qed.

(** However many calls are made and whatever they return or raise, each
    call hands the session exactly one request, in the order of the calls,
    always to the session and with the base URL the client had at the
    start; each call takes exactly one reply; and the attributes of the
    client are never changed.  Nothing is retried and no call depends on an
    earlier one. *)
Theorem calls_in_sequence (loads : string -> option json)
    (cs : list call) (w : world) :
  requests_in (drop (length (trace w)) (trace (run_all loads cs w)))
  = map (fun c => (session (self w), spec_request (base_url (self w)) c)) cs
  /\ self (run_all loads cs w) = self w
  /\ inbox (run_all loads cs w) = drop (length cs) (inbox w).
Proof.
  destruct (run_all_trace loads cs w) as (evs & Htr & Hrq & Hself & Hin).
  split; [|done]. by rewrite Htr, drop_app_length.
Qed.
